(** * jellyfin-subfix: a shallow embedding of [src/main.rs]

    Text is modelled as [String.string], i.e. as a sequence of bytes.  The
    file names this tool handles are ASCII; on ASCII text the Unicode
    classes of the [regex] crate ([\d], case-insensitive letters) coincide
    with the ASCII ones used below. *)

From Stdlib Require Import String Ascii List Bool Arith Lia.
Import ListNotations.
Open Scope string_scope.
Open Scope bool_scope.
Open Scope nat_scope.

(** ** Results and errors *)

Inductive result (A E : Type) : Type :=
| Ok (a : A)
| Err (e : E).
Arguments Ok {A E} a.
Arguments Err {A E} e.

(** The [anyhow] errors raised by the program, one constructor per
    [bail!] / [context] / [anyhow!] site. *)
Inductive Error : Type :=
| SetCurrentDirFailed                (* "failed to move into directory" *)
| PatternMismatch                    (* "doesn't match pattern S01E01" *)
| ParseSeason                        (* "couldn't parse season" *)
| ParseEpisode                       (* "couldn't parse episode" *)
| UnknownLanguage (language : string) (* "couldn't find language {language:?}" *)
| NoVideosFound                      (* "didn't find any videos in {path}" *)
| MixedSeriesAndMovies               (* "can't mix series and movies" *)
| InconsistentTitles.                (* "unsure that all videos are different versions ..." *)

(** ** Characters *)

Definition is_digitb (c : ascii) : bool :=
  let n := nat_of_ascii c in (48 <=? n) && (n <=? 57).

Definition to_lower (c : ascii) : ascii :=
  let n := nat_of_ascii c in
  if (65 <=? n) && (n <=? 90) then ascii_of_nat (n + 32) else c.

(** Case-insensitive comparison of characters and strings, as in a
    [RegexBuilder::case_insensitive(true)] pattern. *)
Definition ci_eqb (c d : ascii) : bool := Ascii.eqb (to_lower c) (to_lower d).

Fixpoint ci_string_eqb (s t : string) : bool :=
  match s, t with
  | EmptyString, EmptyString => true
  | String c s', String d t' => ci_eqb c d && ci_string_eqb s' t'
  | _, _ => false
  end.

Fixpoint str_drop (n : nat) (s : string) : string :=
  match n, s with
  | O, _ => s
  | S n', String _ s' => str_drop n' s'
  | S _, EmptyString => EmptyString
  end.

(** ** [SERIES_INFO_REGEX]: [S\d{2}E\d{2}], case-insensitive *)

(** The match of the pattern anchored at the start of [s], if any. *)
Definition series_info_at (s : string) : option string :=
  match s with
  | String c0 (String c1 (String c2 (String c3 (String c4 (String c5 _))))) =>
      if ci_eqb c0 "S" && is_digitb c1 && is_digitb c2 && ci_eqb c3 "E"
         && is_digitb c4 && is_digitb c5
      then Some (String c0 (String c1 (String c2 (String c3 (String c4
                  (String c5 EmptyString))))))
      else None
  | _ => None
  end.

(** [SERIES_INFO_REGEX.find(s)]: the leftmost match. *)
Fixpoint series_info_find (s : string) : option string :=
  match series_info_at s with
  | Some m => Some m
  | None =>
      match s with
      | EmptyString => None
      | String _ s' => series_info_find s'
      end
  end.

(** [SERIES_INFO_REGEX.is_match(s)] *)
Definition series_info_is_match (s : string) : bool :=
  match series_info_find s with Some _ => true | None => false end.

(** ** Integer parsing: [u8::from_str] and [NonZeroU8::from_str] *)

Fixpoint u8_digits (acc : nat) (s : string) : option nat :=
  match s with
  | EmptyString => Some acc
  | String c s' =>
      if is_digitb c then
        let v := acc * 10 + (nat_of_ascii c - 48) in
        if 255 <? v then None (* PosOverflow *) else u8_digits v s'
      else None (* InvalidDigit *)
  end.

Definition parse_u8 (s : string) : option nat :=
  match s with
  | EmptyString => None (* Empty *)
  | String c s' =>
      if Ascii.eqb c "+" then
        match s' with EmptyString => None | _ => u8_digits 0 s' end
      else u8_digits 0 s
  end.

Definition parse_nonzero_u8 (s : string) : option nat :=
  match parse_u8 s with
  | Some 0 => None (* Zero *)
  | r => r
  end.

(** ** [SeriesInfo] *)

Record SeriesInfo : Type := mkSeriesInfo {
  season : nat;   (* NonZeroU8 *)
  episode : nat   (* NonZeroU8 *)
}.

Definition SeriesInfo_eq_dec (a b : SeriesInfo) : {a = b} + {a <> b}.
Proof. decide equality; apply Nat.eq_dec. Defined.

Definition option_SeriesInfo_eq_dec (a b : option SeriesInfo) :
  {a = b} + {a <> b}.
Proof. decide equality; apply SeriesInfo_eq_dec. Defined.

(** [<SeriesInfo as FromStr>::from_str] *)
Definition SeriesInfo_from_str (s : string) : result SeriesInfo Error :=
  if negb (String.length s =? 6) || negb (series_info_is_match s)
  then Err PatternMismatch
  else
    match parse_nonzero_u8 (substring 1 2 s) with
    | None => Err ParseSeason
    | Some season =>
        match parse_nonzero_u8 (substring 4 2 s) with
        | None => Err ParseEpisode
        | Some episode => Ok (mkSeriesInfo season episode)
        end
    end.

(** The series-info block shared by [Video::from_path] and [Subtitle::new]:
    find the pattern in the whole path and parse it, propagating a parse
    failure with [?]. *)
Definition series_info_of_path (path : string)
  : result (option SeriesInfo) Error :=
  match series_info_find path with
  | Some m =>
      match SeriesInfo_from_str m with
      | Ok si => Ok (Some si)
      | Err e => Err e
      end
  | None => Ok None
  end.

(** ** Paths ([camino::Utf8Path], i.e. [std::path::Path]) *)

Fixpoint split_on (sep : ascii) (s : string) : list string :=
  match s with
  | EmptyString => [EmptyString]
  | String c s' =>
      if Ascii.eqb c sep then EmptyString :: split_on sep s'
      else match split_on sep s' with
           | w :: ws => String c w :: ws
           | [] => [String c EmptyString]
           end
  end.

(** The components of a path, without the empty and [.] ones that
    [Path::components] normalises away. *)
Definition path_components (p : string) : list string :=
  filter (fun c => negb (String.eqb c "" || String.eqb c ".")) (split_on "/" p).

Fixpoint last_opt {A} (l : list A) : option A :=
  match l with
  | [] => None
  | [x] => Some x
  | _ :: l' => last_opt l'
  end.

(** [Path::file_name] *)
Definition file_name (p : string) : option string :=
  match last_opt (path_components p) with
  | Some c => if String.eqb c ".." then None else Some c
  | None => None
  end.

(** Split at the last occurrence of [c]. *)
Fixpoint rsplit_once (c : ascii) (s : string) : option (string * string) :=
  match s with
  | EmptyString => None
  | String d s' =>
      match rsplit_once c s' with
      | Some (b, a) => Some (String d b, a)
      | None => if Ascii.eqb d c then Some (EmptyString, s') else None
      end
  end.

(** [std::path::rsplit_file_at_dot] *)
Definition rsplit_file_at_dot (file : string) : option string * option string :=
  if String.eqb file ".." then (Some file, None) else
  match rsplit_once "." file with
  | None => (None, Some file)
  | Some (before, after) =>
      if String.eqb before "" then (Some file, None) else (Some before, Some after)
  end.

(** [Path::file_stem] *)
Definition file_stem (p : string) : option string :=
  match file_name p with
  | None => None
  | Some n =>
      match rsplit_file_at_dot n with
      | (Some b, _) => Some b
      | (None, a) => a
      end
  end.

(** [Path::extension] *)
Definition extension (p : string) : option string :=
  match file_name p with
  | None => None
  | Some n =>
      match rsplit_file_at_dot n with
      | (Some _, Some a) => Some a
      | _ => None
      end
  end.

(** [PathBuf::push] with a relative, non-empty component. *)
Definition path_push (root name : string) : string :=
  match name with
  | String "/" _ => name
  | _ =>
      if String.eqb root "" then name
      else if String.eqb (str_drop (String.length root - 1) root) "/"
      then root ++ name else root ++ "/" ++ name
  end.

(** ** [Video] *)

Record Video : Type := mkVideo {
  v_path : string;
  v_series_info : option SeriesInfo
}.

(** [Video::from_path] *)
Definition Video_from_path (path : string) : result Video Error :=
  match series_info_of_path path with
  | Ok series_info => Ok (mkVideo path series_info)
  | Err e => Err e
  end.

Definition part_of_series (v : Video) : bool :=
  match v_series_info v with Some _ => true | None => false end.

(** [discover_videos], from the paths the directory walk yields (already
    filtered by [predicates::is_video]): paths that fail [Video::from_path]
    are skipped with a warning. *)
Fixpoint discover_videos (paths : list string) : list Video :=
  match paths with
  | [] => []
  | p :: ps =>
      match Video_from_path p with
      | Ok v => v :: discover_videos ps
      | Err _ => discover_videos ps
      end
  end.

(** ** [predicates] *)

Definition all_a_series (videos : list Video) : bool :=
  forallb part_of_series videos.

Definition no_series (videos : list Video) : bool :=
  forallb (fun v => negb (part_of_series v)) videos.

(** [SEASON_AND_QUALITY_SUFFIX_REGEX]:
    [( S\d{2}E\d{2})? - ((720p)|(1080p)|(4K( HDR)?))$], case-insensitive. *)

Definition quality_token (t : string) : bool :=
  ci_string_eqb t "720p" || ci_string_eqb t "1080p"
  || ci_string_eqb t "4K" || ci_string_eqb t "4K HDR".

(** [ - ((720p)|(1080p)|(4K( HDR)?))$] matching the whole of [t]. *)
Definition quality_tail (t : string) : bool :=
  match t with
  | String a (String b (String c t')) =>
      Ascii.eqb a " " && Ascii.eqb b "-" && Ascii.eqb c " " && quality_token t'
  | _ => false
  end.

(** The whole pattern matching the whole of [t] (it is anchored by [$]). *)
Definition season_and_quality_suffix (t : string) : bool :=
  quality_tail t
  || match t with
     | String sp t' =>
         Ascii.eqb sp " "
         && match series_info_at t' with
            | Some _ => quality_tail (str_drop 6 t')
            | None => false
            end
     | EmptyString => false
     end.

(** The text before the leftmost match, if there is a match. *)
Fixpoint before_suffix_match (s : string) : option string :=
  if season_and_quality_suffix s then Some EmptyString
  else match s with
       | EmptyString => None
       | String c s' =>
           match before_suffix_match s' with
           | Some b => Some (String c b)
           | None => None
           end
       end.

(** [SEASON_AND_QUALITY_SUFFIX_REGEX.splitn(s, 2).next()]: the first piece
    of the split, which is the whole text when nothing matches. *)
Definition splitn_first (s : string) : option string :=
  match before_suffix_match s with
  | Some b => Some b
  | None => Some s
  end.

(** [predicates::different_versions_same_media]; [None] is the panic of
    [expect] (an empty iterator, or a first file without a name). *)
Definition different_versions_same_media (files : list string) : option bool :=
  match files with
  | [] => None
  | first :: files =>
      match file_stem first with
      | None => None
      | Some first_name =>
          match splitn_first first_name with
          | None => Some false (* "couldn't find quality suffix" *)
          | Some name_prefix =>
              Some (forallb
                      (fun file =>
                         match file_stem file with
                         | Some name => String.prefix name_prefix name
                         | None => false
                         end)
                      files)
          end
      end
  end.

(** ** Effects of a run

    A run of [process] is a computation in a small state-and-exception
    monad.  The state is the list of [symlink(actual_file, link_here)]
    calls made so far; [Bail] is an [anyhow] error returned by [process]
    and [Panic] an [unwrap] / [expect] that fails. *)

Inductive exn : Type :=
| Bail (e : Error)
| Panic.

Definition Link : Type := (string * string)%type.

Definition M (A : Type) : Type := list Link -> list Link * (A + exn).

Definition ret {A} (a : A) : M A := fun tr => (tr, inl a).

Definition bind {A B} (m : M A) (k : A -> M B) : M B :=
  fun tr => match m tr with
            | (tr', inl a) => k a tr'
            | (tr', inr x) => (tr', inr x)
            end.

Definition throw {A} (x : exn) : M A := fun tr => (tr, inr x).

(** The call of [symlink]: its [io::Result] is only logged by the caller,
    so it is recorded and never fails the run. *)
Definition symlink (actual_file link_here : string) : M unit :=
  fun tr => ((tr ++ [(actual_file, link_here)])%list, inl tt).

Notation "x <- m ;; k" := (bind m (fun x => k))
  (at level 61, m at next level, right associativity).
Notation "m ;;; k" := (bind m (fun _ => k))
  (at level 61, right associativity).

(** The checks [process] makes on the discovered videos, in the
    [match videos.len()] of [process]. *)
Definition check_videos (videos : list Video) : M unit :=
  match videos with
  | [] => throw (Bail NoVideosFound)
  | [_] => ret tt
  | _ =>
      if negb (no_series videos || all_a_series videos)
      then throw (Bail MixedSeriesAndMovies)
      else match different_versions_same_media (map v_path videos) with
           | None => throw Panic
           | Some false => throw (Bail InconsistentTitles)
           | Some true => ret tt
           end
  end.

(** ** Languages, subtitles, deduplication, pairing and [process]

    [isolang::Language] is a dependency of the program: its table is a
    parameter here.  [OVERVIEW] lists every language with its English name;
    [Language::from_name] returns the language whose English name is
    exactly the given string. *)

(** The part of [isolang] the program uses. *)
Class IsoLang : Type := {
  Language : Type;
  Language_eq_dec : forall a b : Language, {a = b} + {a <> b};
  (** [Language::Eng] *)
  Eng : Language;
  (** [Language::to_639_1] and [Language::to_639_3] *)
  to_639_1 : Language -> option string;
  to_639_3 : Language -> string;
  (** every language with its English name *)
  OVERVIEW : list (Language * string)
}.

Section WithLanguages.

Context `{IsoLang}.

(** [Language::from_name] *)
Definition from_name (engl_name : string) : option Language :=
  match find (fun entry => String.eqb (snd entry) engl_name) OVERVIEW with
  | Some (lang, _) => Some lang
  | None => None
  end.

Record Subtitle : Type := mkSubtitle {
  s_path : string;
  s_lang : Language;
  s_series_info : option SeriesInfo
}.

(** [NUMBER_PREFIX_REGEX] = [^\d+_]: the text after the match, if any. *)
Fixpoint digits_then_underscore (s : string) : option string :=
  match s with
  | EmptyString => None
  | String c s' =>
      if is_digitb c then digits_then_underscore s'
      else if Ascii.eqb c "_" then Some s' else None
  end.

Definition number_prefix_rest (s : string) : option string :=
  match s with
  | String c s' => if is_digitb c then digits_then_underscore s' else None
  | EmptyString => None
  end.

(** [NUMBER_PREFIX_REGEX.splitn(s, 2).last().unwrap()] *)
Definition strip_number_prefix (s : string) : string :=
  match number_prefix_rest s with
  | Some rest => rest
  | None => s
  end.

(** [Subtitle::new]; the outer [None] is the panic of [expect]. *)
Definition Subtitle_new (path : string) : option (result Subtitle Error) :=
  match file_stem path with
  | None => None
  | Some file_name =>
      let language := strip_number_prefix file_name in
      match from_name language with
      | None => Some (Err (UnknownLanguage language))
      | Some lang =>
          match series_info_of_path path with
          | Ok series_info => Some (Ok (mkSubtitle path lang series_info))
          | Err e => Some (Err e)
          end
      end
  end.

(** [discover_subtitles], from the paths the directory walk yields (sorted
    by file name, already filtered by [predicates::is_subtitle]): a path
    that fails [Subtitle::new] is skipped with a warning.  [None] is a
    panic. *)
Fixpoint discover_subtitles (paths : list string) : option (list Subtitle) :=
  match paths with
  | [] => Some []
  | p :: ps =>
      match Subtitle_new p with
      | None => None
      | Some (Ok sub) =>
          match discover_subtitles ps with
          | Some subs => Some (sub :: subs)
          | None => None
          end
      | Some (Err _) => discover_subtitles ps
      end
  end.

(** *** [remove_duplicate_languages] *)

Definition Key : Type := (Language * option SeriesInfo)%type.

Definition key (sub : Subtitle) : Key := (s_lang sub, s_series_info sub).

Definition Key_eq_dec (a b : Key) : {a = b} + {a <> b}.
Proof.
  decide equality; solve [apply option_SeriesInfo_eq_dec | apply Language_eq_dec].
Defined.

(** [Vec::contains] *)
Definition contains (seen : list Key) (k : Key) : bool :=
  existsb (fun k' => if Key_eq_dec k' k then true else false) seen.

(** The [retain] loop, with the [seen] vector threaded through. *)
Fixpoint retain_unseen (seen : list Key) (subs : list Subtitle) : list Subtitle :=
  match subs with
  | [] => []
  | sub :: subs' =>
      if contains seen (key sub) then retain_unseen seen subs'
      else sub :: retain_unseen (seen ++ [key sub])%list subs'
  end.

Definition remove_duplicate_languages (subs : list Subtitle) : list Subtitle :=
  retain_unseen [] subs.

(** *** [create_symlinks] *)

(** The [flat_map] / [filter] pipeline: every video with every subtitle,
    kept when [video.series_info == subtitle.series_info]. *)
Definition pairings (videos : list Video) (subtitles : list Subtitle)
  : list (Video * Subtitle) :=
  filter (fun vs => if option_SeriesInfo_eq_dec (v_series_info (fst vs))
                                                (s_series_info (snd vs))
                    then true else false)
         (flat_map (fun video => map (fun subtitle => (video, subtitle)) subtitles)
                   videos).

(** [jellyfin_flags::DEFAULT] *)
Definition DEFAULT : string := "default".

(** [subtitle.lang.to_639_1().unwrap_or(subtitle.lang.to_639_3())] *)
Definition preferred_tag (lang : Language) : string :=
  match to_639_1 lang with
  | Some code => code
  | None => to_639_3 lang
  end.

(** The [file_name] block of [create_symlinks]; [None] is the panic of an
    [unwrap]. *)
Definition link_file_name (video : Video) (subtitle : Subtitle) : option string :=
  match file_stem (v_path video) with
  | None => None
  | Some stem =>
      let file_name := stem ++ "." ++ preferred_tag (s_lang subtitle) in
      let file_name :=
        if Language_eq_dec (s_lang subtitle) Eng
        then file_name ++ "." ++ DEFAULT else file_name in
      match extension (s_path subtitle) with
      | None => None
      | Some ext => Some (file_name ++ "." ++ ext)
      end
  end.

Fixpoint link_each (in_root_dir : string) (pairs : list (Video * Subtitle))
  : M unit :=
  match pairs with
  | [] => ret tt
  | (video, subtitle) :: pairs' =>
      match link_file_name video subtitle with
      | None => throw Panic
      | Some file_name =>
          symlink (s_path subtitle) (path_push in_root_dir file_name) ;;;
          link_each in_root_dir pairs'
      end
  end.

Definition create_symlinks (in_root_dir : string) (videos : list Video)
    (subtitles : list Subtitle) : M unit :=
  link_each in_root_dir (pairings videos subtitles).

(** *** [process]

    [set_current_dir_ok] is the outcome of [env::set_current_dir];
    [video_paths] and [subtitle_paths] are what the two directory walks
    yield. *)
Definition process (set_current_dir_ok : bool) (path : string)
    (video_paths subtitle_paths : list string) : M unit :=
  if negb set_current_dir_ok then throw (Bail SetCurrentDirFailed) else
  let videos := discover_videos video_paths in
  check_videos videos ;;;
  match discover_subtitles subtitle_paths with
  | None => throw Panic
  | Some [] => ret tt
  | Some subs =>
      create_symlinks path videos (remove_duplicate_languages subs)
  end.

End WithLanguages.

(** ** An excerpt of the [isolang] table, for concrete runs *)

Module Sample.

Inductive Lang : Type := English | French | German | Asturian.

Definition Lang_eq_dec (a b : Lang) : {a = b} + {a <> b}.
Proof. decide equality. Defined.

#[export] Instance isolang : IsoLang := {|
  Language := Lang;
  Language_eq_dec := Lang_eq_dec;
  Eng := English;
  to_639_1 := fun l => match l with
                       | English => Some "en" | French => Some "fr" | German => Some "de"
                       | Asturian => None
                       end;
  to_639_3 := fun l => match l with
                       | English => "eng" | French => "fra" | German => "deu" | Asturian => "ast"
                       end;
  OVERVIEW := [(English, "English"); (French, "French"); (German, "German");
               (Asturian, "Asturian")]
|}.

End Sample.

(** ** [predicates::is_video] and [predicates::is_subtitle] *)

Definition VIDEO_EXTENSIONS : list string := ["mp4"; "mkv"; "avi"].
Definition SUBTITLE_EXTENSIONS : list string := ["srt"; "vtt"; "idx"; "ass"; "dts"].

(** [predicates::ext_in]: [OsStr::eq_ignore_ascii_case] against each entry. *)
Definition ext_in (ext : string) (group : list string) : bool :=
  existsb (fun acceptable => ci_string_eqb ext acceptable) group.

(** A [walkdir::DirEntry]: its path and whether [file_type().is_file()]. *)
Record DirEntry : Type := mkDirEntry {
  de_path : string;
  de_is_file : bool
}.

Definition is_video (dir_entry : DirEntry) : bool :=
  de_is_file dir_entry
  && match extension (de_path dir_entry) with
     | Some ext => ext_in ext VIDEO_EXTENSIONS
     | None => false
     end.

Definition is_subtitle (dir_entry : DirEntry) : bool :=
  de_is_file dir_entry
  && match extension (de_path dir_entry) with
     | Some ext => ext_in ext SUBTITLE_EXTENSIONS
     | None => false
     end.

(** The ASCII digit of [n < 10], for stating facts about parsed text. *)
Definition ascii_digit (n : nat) : ascii := ascii_of_nat (48 + n).

(** The deduplication as the specification words it, for comparison with
    [remove_duplicate_languages]: an entry is kept exactly when no earlier
    entry of the sequence, kept or not, has the same
    (language, series info) key. *)
Fixpoint keep_first_from `{IsoLang} (earlier : list Subtitle) (l : list Subtitle)
  : list Subtitle :=
  match l with
  | [] => []
  | sub :: l' =>
      if existsb (fun e => if Key_eq_dec (key e) (key sub) then true else false) earlier
      then keep_first_from (earlier ++ [sub])%list l'
      else sub :: keep_first_from (earlier ++ [sub])%list l'
  end.

Definition dedup_spec `{IsoLang} (l : list Subtitle) : list Subtitle :=
  keep_first_from [] l.

(** * Properties *)

Module Runs.
Import Sample.

Example run_movie :
  process true "d" ["d/Movie.mkv"] ["d/English.srt"; "d/Subs/2_French.srt"] []
  = ([("d/English.srt", "d/Movie.en.default.srt");
      ("d/Subs/2_French.srt", "d/Movie.fr.srt")], inl tt).
Proof. reflexivity. Qed.

Example run_series :
  process true "d" ["d/Show S01E02 - 720p.mkv"; "d/Show S01E03 - 720p.mkv"]
    ["d/S01E02/English.srt"; "d/S01E03/1_English.srt"; "d/S01E03/2_English.srt";
     "d/S01E02/Klingon.srt"; "d/S01E03/Asturian.ass"] []
  = ([("d/S01E02/English.srt", "d/Show S01E02 - 720p.en.default.srt");
      ("d/S01E03/1_English.srt", "d/Show S01E03 - 720p.en.default.srt");
      ("d/S01E03/Asturian.ass", "d/Show S01E03 - 720p.ast.ass")], inl tt).
Proof. reflexivity. Qed.

Example ex_stem : file_stem "dir/Show - 720p.mkv" = Some "Show - 720p".
Proof. reflexivity. Qed.

Example ex_ext : extension "a/b/English.srt" = Some "srt".
Proof. reflexivity. Qed.

Example ex_series : series_info_of_path "Show/s01e02.mkv"
  = Ok (Some (mkSeriesInfo 1 2)).
Proof. reflexivity. Qed.

Example ex_zero : series_info_of_path "S00E01" = Err ParseSeason.
Proof. reflexivity. Qed.

Example ex_push : path_push "dir" "a.en.srt" = "dir/a.en.srt".
Proof. reflexivity. Qed.

Example ex_prefix1 : splitn_first "Show - 720p" = Some "Show".
Proof. reflexivity. Qed.

Example ex_prefix2 : splitn_first "Show s01E01 - 4k hdr" = Some "Show".
Proof. reflexivity. Qed.

Example ex_prefix3 : splitn_first "A - 720p - 1080p" = Some "A - 720p".
Proof. reflexivity. Qed.

Example ex_prefix4 : splitn_first "Movie" = Some "Movie".
Proof. reflexivity. Qed.

Example ex_dv1 : different_versions_same_media
  ["d/Show - 720p.mkv"; "d/Show - 1080p.mkv"] = Some true.
Proof. reflexivity. Qed.

Example ex_dv2 : different_versions_same_media
  ["d/Show S01E01 - 720p.mkv"; "d/Other S01E01 - 720p.mkv"] = Some false.
Proof. reflexivity. Qed.

End Runs.

(** ** Episode identifiers and titles *)

Module Titles.

Lemma prefix_refl (s : string) : String.prefix s s = true.
Proof.
  induction s as [|c s IH]; [reflexivity|].
  simpl. destruct (ascii_dec c c); [exact IH | congruence].
Qed.

Lemma before_suffix_match_prefix (s b : string) :
  before_suffix_match s = Some b -> String.prefix b s = true.
Proof.
  revert b; induction s as [|c s IH]; intros b H.
  - simpl in H. discriminate.
  - simpl in H. destruct (season_and_quality_suffix (String c s)).
    + injection H as <-. reflexivity.
    + destruct (before_suffix_match s) as [b'|] eqn:E; [|discriminate].
      injection H as <-. simpl.
      destruct (ascii_dec c c); [apply IH; reflexivity | congruence].
Qed.

Lemma splitn_first_prefix (s p : string) :
  splitn_first s = Some p -> String.prefix p s = true.
Proof.
  unfold splitn_first. destruct (before_suffix_match s) eqn:E; intros H;
    injection H as <-; [apply before_suffix_match_prefix; exact E | apply prefix_refl].
Qed.

Lemma series_info_find_eq (s : string) :
  series_info_find s =
  match series_info_at s with
  | Some m => Some m
  | None => match s with EmptyString => None | String _ s' => series_info_find s' end
  end.
Proof. destruct s; reflexivity. Qed.

Lemma series_info_at_shape (s m : string) :
  series_info_at s = Some m ->
  exists c0 c1 c2 c3 c4 c5,
    m = String c0 (String c1 (String c2 (String c3 (String c4 (String c5 ""))))) /\
    series_info_at m = Some m.
Proof.
  intros H.
  destruct s as [|c0 [|c1 [|c2 [|c3 [|c4 [|c5 s]]]]]]; try discriminate.
  simpl in H.
  destruct (ci_eqb c0 "S" && is_digitb c1 && is_digitb c2 && ci_eqb c3 "E"
            && is_digitb c4 && is_digitb c5) eqn:E; [|discriminate].
  injection H as <-. exists c0, c1, c2, c3, c4, c5. split; [reflexivity|].
  simpl. rewrite E. reflexivity.
Qed.

Lemma series_info_find_shape (s m : string) :
  series_info_find s = Some m ->
  exists c0 c1 c2 c3 c4 c5,
    m = String c0 (String c1 (String c2 (String c3 (String c4 (String c5 ""))))) /\
    series_info_at m = Some m.
Proof.
  induction s as [|c s IH]; intros H; rewrite series_info_find_eq in H.
  - discriminate.
  - destruct (series_info_at (String c s)) eqn:E.
    + injection H as <-. eapply series_info_at_shape; exact E.
    + apply IH; exact H.
Qed.

Lemma discover_videos_app (l1 l2 : list string) :
  discover_videos (l1 ++ l2) = (discover_videos l1 ++ discover_videos l2)%list.
Proof.
  induction l1 as [|p l1 IH]; [reflexivity|].
  simpl. destruct (Video_from_path p); simpl; rewrite IH; reflexivity.
Qed.

(** A zero season or episode makes [SeriesInfo::from_str] fail. *)
Lemma zero_series_info_err (path m : string) :
  series_info_find path = Some m ->
  substring 1 2 m = "00" \/ substring 4 2 m = "00" ->
  exists e, series_info_of_path path = Err e.
Proof.
  intros Hfind Hzero.
  destruct (series_info_find_shape _ _ Hfind)
    as (c0 & c1 & c2 & c3 & c4 & c5 & -> & Hat).
  unfold series_info_of_path. rewrite Hfind.
  assert (Hm : series_info_is_match
                 (String c0 (String c1 (String c2 (String c3 (String c4
                    (String c5 "")))))) = true).
  { unfold series_info_is_match. rewrite series_info_find_eq, Hat. reflexivity. }
  unfold SeriesInfo_from_str. rewrite Hm. simpl (String.length _).
  simpl (negb (6 =? 6) || negb true).
  destruct Hzero as [Hz | Hz]; simpl in Hz; injection Hz as -> ->.
  - simpl. eexists; reflexivity.
  - destruct (parse_nonzero_u8 (substring 1 2 _)); simpl; eexists; reflexivity.
Qed.


Lemma discover_subtitles_skip `{IsoLang} (pre post : list string) (p : string) (e : Error) :
  Subtitle_new p = Some (Err e) ->
  discover_subtitles (pre ++ p :: post) = discover_subtitles (pre ++ post).
Proof.
  intros Hp. induction pre as [|q pre IH]; simpl.
  - rewrite Hp. reflexivity.
  - destruct (Subtitle_new q) as [[sub|e']|]; [rewrite IH| exact IH |]; reflexivity.
Qed.

(** C1 (as stated, refuted).  The same-title check accepts
    ["Show - 720p"] with ["Show Extended - 1080p"]: the second stem starts
    with the title prefix ["Show"], but its own stripped stem is
    ["Show Extended"]. *)
Lemma validator_stripped_titles_differ :
  ~ (forall (videos : list Video) (first : Video) (first_name : string) tr,
       2 <= length videos ->
       hd_error videos = Some first ->
       file_stem (v_path first) = Some first_name ->
       snd (check_videos videos tr) = inl tt ->
       forall v, In v videos ->
       exists name, file_stem (v_path v) = Some name /\
                    splitn_first name = splitn_first first_name).
Proof.
  intros Hclaim.
  destruct (Hclaim (discover_videos ["d/Show - 720p.mkv"; "d/Show Extended - 1080p.mkv"])
              (mkVideo "d/Show - 720p.mkv" None) "Show - 720p" []
              ltac:(vm_compute; lia) eq_refl eq_refl eq_refl
              (mkVideo "d/Show Extended - 1080p.mkv" None)
              ltac:(vm_compute; right; left; reflexivity))
    as (name & Hname & Heq).
  vm_compute in Hname. injection Hname as <-. vm_compute in Heq. discriminate.
Qed.

(** C1 (amended).  After the checks of [process] pass on two or more
    videos, the file stem of every video starts (case-sensitively) with the
    title prefix: the first video's stem with its trailing
    episode/quality suffix removed. *)
Theorem validated_videos_start_with_title_prefix
    (videos : list Video) (first : Video) (first_name name_prefix : string)
    (tr : list Link) :
  2 <= length videos ->
  hd_error videos = Some first ->
  file_stem (v_path first) = Some first_name ->
  splitn_first first_name = Some name_prefix ->
  snd (check_videos videos tr) = inl tt ->
  forall v, In v videos ->
  exists name, file_stem (v_path v) = Some name /\
               String.prefix name_prefix name = true.
Proof.
  intros Hlen Hhd Hstem Hsplit Hok v Hin.
  destruct videos as [|v1 [|v2 rest]]; simpl in Hlen; try lia.
  simpl in Hhd. injection Hhd as ->.
  unfold check_videos in Hok.
  destruct (negb (no_series (first :: v2 :: rest) || all_a_series (first :: v2 :: rest)));
    [discriminate|].
  destruct (different_versions_same_media (map v_path (first :: v2 :: rest)))
    as [[|]|] eqn:Hdv; try discriminate.
  change (map v_path (first :: v2 :: rest))
    with (v_path first :: map v_path (v2 :: rest)) in Hdv.
  set (fs := map v_path (v2 :: rest)) in Hdv.
  unfold different_versions_same_media in Hdv.
  rewrite Hstem, Hsplit in Hdv.
  apply (f_equal (fun o => match o with Some b => b | None => false end)) in Hdv.
  cbv beta iota in Hdv. rename Hdv into Hall.
  destruct Hin as [<- | Hin].
  - exists first_name. split; [exact Hstem | apply splitn_first_prefix; exact Hsplit].
  - rewrite forallb_forall in Hall.
    specialize (Hall (v_path v) (in_map v_path _ _ Hin)).
    destruct (file_stem (v_path v)) as [name|]; [|discriminate].
    exists name. split; [reflexivity | exact Hall].
Qed.

Lemma validated_videos_start_with_title_prefix_witness :
  let videos := discover_videos ["d/Show - 720p.mkv"; "d/Show - 1080p.mkv"] in
  2 <= length videos /\
  hd_error videos = Some (mkVideo "d/Show - 720p.mkv" None) /\
  file_stem "d/Show - 720p.mkv" = Some "Show - 720p" /\
  splitn_first "Show - 720p" = Some "Show" /\
  snd (check_videos videos []) = inl tt /\
  exists name, file_stem "d/Show - 1080p.mkv" = Some name /\
               String.prefix "Show" name = true.
Proof.
  cbv zeta.
  refine (conj _ (conj eq_refl (conj eq_refl (conj eq_refl (conj eq_refl _))))).
  - simpl; lia.
  - exact (validated_videos_start_with_title_prefix
             (discover_videos ["d/Show - 720p.mkv"; "d/Show - 1080p.mkv"])
             (mkVideo "d/Show - 720p.mkv" None) "Show - 720p" "Show" []
             ltac:(vm_compute; lia) ltac:(reflexivity) ltac:(reflexivity)
             ltac:(reflexivity) ltac:(reflexivity)
             (mkVideo "d/Show - 1080p.mkv" None)
             ltac:(vm_compute; right; left; reflexivity)).
Defined.

(** C2 (as stated, refuted).  A zero season or episode is not read as "no
    identifier": [SeriesInfo::from_str] fails, so does [Video::from_path],
    and the video is dropped. *)
Lemma zero_series_info_not_absent :
  series_info_of_path "S00E01" = Err ParseSeason /\
  series_info_of_path "S01E00" = Err ParseEpisode /\
  Video_from_path "d/S00E01.mkv" = Err ParseSeason /\
  discover_videos ["d/S00E01.mkv"] = [].
Proof. repeat split; reflexivity. Qed.

(** C2 (amended).  When the first [S##E##] occurrence (case-insensitive)
    in a path has the season or episode ["00"], extracting the identifier
    fails with a parse error rather than giving none, and the video (or the
    subtitle) at that path is skipped while the other paths are kept. *)
Theorem zero_series_info_skips_file `{IsoLang} (path m : string) :
  series_info_find path = Some m ->
  substring 1 2 m = "00" \/ substring 4 2 m = "00" ->
  (exists e, series_info_of_path path = Err e) /\
  (forall pre post,
     discover_videos (pre ++ path :: post) = discover_videos (pre ++ post)) /\
  (file_stem path <> None ->
   forall pre post,
     discover_subtitles (pre ++ path :: post) = discover_subtitles (pre ++ post)).
Proof.
  intros Hfind Hzero.
  destruct (zero_series_info_err _ _ Hfind Hzero) as [e He].
  split; [exists e; exact He|]. split.
  - intros pre post. rewrite !discover_videos_app. simpl.
    unfold Video_from_path at 1. rewrite He. reflexivity.
  - intros Hstem pre post.
    destruct (file_stem path) as [fname|] eqn:Hs; [|congruence].
    destruct (from_name (strip_number_prefix fname)) as [lang|] eqn:Hl.
    + apply discover_subtitles_skip with (e := e).
      unfold Subtitle_new. rewrite Hs, Hl, He. reflexivity.
    + apply discover_subtitles_skip
        with (e := UnknownLanguage (strip_number_prefix fname)).
      unfold Subtitle_new. rewrite Hs, Hl. reflexivity.
Qed.

Lemma zero_series_info_skips_file_witness :
  series_info_find "d/Show S01E00.mkv" = Some "S01E00" /\
  discover_videos ["d/Show S01E00.mkv"; "d/Show S01E01.mkv"]
  = discover_videos ["d/Show S01E01.mkv"].
Proof.
  split; [reflexivity|].
  destruct (zero_series_info_skips_file (H := Sample.isolang)
              "d/Show S01E00.mkv" "S01E00" eq_refl (or_intror eq_refl))
    as (_ & Hv & _).
  exact (Hv [] ["d/Show S01E01.mkv"]).
Defined.

(** C8.  When the suffix pattern does not match the first video's stem,
    the check does not fail outright: the title prefix is the whole stem,
    and the check passes exactly when every other file's stem starts with
    it. *)
Theorem no_suffix_whole_stem_is_prefix
    (first : string) (files : list string) (first_name : string) :
  file_stem first = Some first_name ->
  before_suffix_match first_name = None ->
  splitn_first first_name = Some first_name /\
  different_versions_same_media (first :: files) <> None /\
  (different_versions_same_media (first :: files) = Some true <->
   forall f, In f files ->
   exists name, file_stem f = Some name /\ String.prefix first_name name = true).
Proof.
  intros Hstem Hnone.
  assert (Hsplit : splitn_first first_name = Some first_name)
    by (unfold splitn_first; rewrite Hnone; reflexivity).
  simpl. rewrite Hstem, Hsplit.
  split; [reflexivity|]. split; [discriminate|].
  split.
  - intros E f Hf. injection E as E. rewrite forallb_forall in E.
    specialize (E f Hf). destruct (file_stem f) as [name|]; [|discriminate].
    exists name. split; [reflexivity | exact E].
  - intros Hall. f_equal. apply forallb_forall. intros f Hf.
    destruct (Hall f Hf) as (name & Hn & Hp). rewrite Hn. exact Hp.
Qed.

Lemma no_suffix_whole_stem_is_prefix_witness :
  different_versions_same_media ["d/Movie.mkv"; "d/Movie Extended.mkv"] = Some true.
Proof.
  apply (proj2 (proj2 (proj2 (no_suffix_whole_stem_is_prefix
           "d/Movie.mkv" ["d/Movie Extended.mkv"] "Movie"
           ltac:(reflexivity) ltac:(reflexivity))))).
  intros f [<- | []]. exists "Movie Extended". split; reflexivity.
Defined.

End Titles.

(** ** Subtitles: language resolution and deduplication *)

Module Subtitles.

Section Dedup.

Context `{IsoLang}.

Lemma contains_In (seen : list Key) (k : Key) :
  contains seen k = true <-> In k seen.
Proof.
  unfold contains. rewrite existsb_exists. split.
  - intros (k' & Hin & E). destruct (Key_eq_dec k' k); [subst; exact Hin | discriminate].
  - intros Hin. exists k. split; [exact Hin|]. destruct (Key_eq_dec k k); congruence.
Qed.

Lemma contains_app (seen : list Key) (k k' : Key) :
  contains (seen ++ [k'])%list k = contains seen k || (if Key_eq_dec k' k then true else false).
Proof.
  unfold contains. rewrite existsb_app. simpl. rewrite orb_false_r. reflexivity.
Qed.

Lemma retain_unseen_keep_first (l : list Subtitle) :
  forall (seen : list Key) (earlier : list Subtitle),
  (forall k, contains seen k =
             existsb (fun e => if Key_eq_dec (key e) k then true else false) earlier) ->
  retain_unseen seen l = keep_first_from earlier l.
Proof.
  induction l as [|sub l IH]; intros seen earlier Hinv; [reflexivity|].
  cbn [retain_unseen keep_first_from]. rewrite <- Hinv.
  destruct (contains seen (key sub)) eqn:Hc; [|f_equal];
    apply IH; intros k; rewrite existsb_app; cbn [existsb];
    rewrite orb_false_r, <- Hinv.
  - destruct (Key_eq_dec (key sub) k) as [<-|]; [rewrite Hc|rewrite orb_false_r];
      reflexivity.
  - apply contains_app.
Qed.

Lemma retain_unseen_fresh (l : list Subtitle) :
  forall seen : list Key,
  NoDup (map key (retain_unseen seen l)) /\
  (forall k, In k (map key (retain_unseen seen l)) -> contains seen k = false).
Proof.
  induction l as [|sub l IH]; intros seen; simpl.
  - split; [constructor | intros k []].
  - destruct (contains seen (key sub)) eqn:Hc; [apply IH|].
    destruct (IH (seen ++ [key sub])%list) as [Hnd Hfresh].
    simpl. split.
    + constructor; [|exact Hnd].
      intros Hin. specialize (Hfresh _ Hin). rewrite contains_app in Hfresh.
      destruct (Key_eq_dec (key sub) (key sub)); [|congruence].
      rewrite orb_true_r in Hfresh. discriminate.
    + intros k [<- | Hin]; [exact Hc|].
      specialize (Hfresh _ Hin). rewrite contains_app in Hfresh.
      apply orb_false_iff in Hfresh. apply Hfresh.
Qed.

Lemma retain_unseen_nodup_id (l : list Subtitle) :
  forall seen : list Key,
  NoDup (map key l) ->
  (forall sub, In sub l -> contains seen (key sub) = false) ->
  retain_unseen seen l = l.
Proof.
  induction l as [|sub l IH]; intros seen Hnd Hfresh; [reflexivity|].
  cbn [retain_unseen]. rewrite (Hfresh sub (or_introl eq_refl)). f_equal.
  inversion Hnd as [|? ? Hnotin Hnd']; subst.
  apply IH; [exact Hnd'|].
  intros sub' Hin. rewrite contains_app, (Hfresh sub' (or_intror Hin)), orb_false_l.
  destruct (Key_eq_dec (key sub) (key sub')) as [E|]; [|reflexivity].
  exfalso. apply Hnotin. rewrite E. apply in_map. exact Hin.
Qed.

End Dedup.

(** C5.  [remove_duplicate_languages] keeps an entry exactly when no
    earlier entry has the same (language, series info) key, so the first
    one seen wins; in its output no two entries share a key. *)
Theorem remove_duplicate_languages_first_seen `{IsoLang} (subs : list Subtitle) :
  remove_duplicate_languages subs = dedup_spec subs /\
  NoDup (map key (remove_duplicate_languages subs)).
Proof.
  split.
  - apply retain_unseen_keep_first. intros k. reflexivity.
  - apply (retain_unseen_fresh subs []).
Qed.

(** C9.  [remove_duplicate_languages] is idempotent. *)
Theorem remove_duplicate_languages_idempotent `{IsoLang} (subs : list Subtitle) :
  remove_duplicate_languages (remove_duplicate_languages subs)
  = remove_duplicate_languages subs.
Proof.
  unfold remove_duplicate_languages at 1.
  apply retain_unseen_nodup_id.
  - apply (retain_unseen_fresh subs []).
  - intros sub _. reflexivity.
Qed.

Example dedup_first_seen_sample :
  option_map (map s_path)
    (option_map (@remove_duplicate_languages Sample.isolang)
       (@discover_subtitles Sample.isolang ["d/1_English.srt"; "d/2_English.srt"]))
  = Some ["d/1_English.srt"].
Proof. reflexivity. Qed.

Lemma series_info_of_path_err (path : string) (e : Error) :
  series_info_of_path path = Err e ->
  e = PatternMismatch \/ e = ParseSeason \/ e = ParseEpisode.
Proof.
  unfold series_info_of_path, SeriesInfo_from_str.
  destruct (series_info_find path) as [m|]; [|discriminate].
  destruct (negb (String.length m =? 6) || negb (series_info_is_match m));
    [intros [= <-]; auto|].
  destruct (parse_nonzero_u8 (substring 1 2 m)); [|intros [= <-]; auto].
  destruct (parse_nonzero_u8 (substring 4 2 m)); intros [= <-]; auto.
Qed.

Lemma from_name_none `{IsoLang} (token : string) :
  from_name token = None <-> forall entry, In entry OVERVIEW -> snd entry <> token.
Proof.
  unfold from_name. split.
  - destruct (find (fun entry => String.eqb (snd entry) token) OVERVIEW) as [[l n]|] eqn:E;
      [discriminate|].
    intros _ entry Hin Heq. apply (find_none _ _ E) in Hin.
    rewrite Heq, String.eqb_refl in Hin. discriminate.
  - intros Hno.
    assert (E : find (fun entry => String.eqb (snd entry) token) OVERVIEW = None).
    { induction OVERVIEW as [|entry rest IH]; [reflexivity|].
      simpl. destruct (String.eqb_spec (snd entry) token) as [Heq|].
      - exfalso. exact (Hno entry (or_introl eq_refl) Heq).
      - apply IH. intros e Hin. apply Hno. right. exact Hin. }
    rewrite E. reflexivity.
Qed.

Lemma from_name_some `{IsoLang} (token : string) (lang : Language) :
  from_name token = Some lang -> In (lang, token) OVERVIEW.
Proof.
  unfold from_name.
  destruct (find (fun entry => String.eqb (snd entry) token) OVERVIEW) as [[l n]|] eqn:E;
    [|discriminate].
  intros [= <-]. apply find_some in E. destruct E as [Hin Heq].
  apply String.eqb_eq in Heq. simpl in Heq. subst n. exact Hin.
Qed.

(** C6 (as stated, refuted).  [Language::from_name] compares the token with
    the English names of the table only: a standard code such as ["eng"]
    (the ISO 639-3 code of English) is not resolved, and the subtitle
    ["eng.srt"] fails with [UnknownLanguage "eng"]. *)
Lemma language_code_not_resolved :
  @to_639_3 Sample.isolang Sample.English = "eng" /\
  @Subtitle_new Sample.isolang "d/eng.srt" = Some (Err (UnknownLanguage "eng")).
Proof. split; reflexivity. Qed.

(** C6 (amended).  The language token of a subtitle (its file stem without a
    numeric ["N_"] prefix) is looked up by exact comparison with the
    English names of the language table: [Subtitle::new] fails with [UnknownLanguage token]
    exactly when no entry of the table has that name, a resolved language
    is the one of a table entry with that name, and a failing subtitle is
    skipped while the other paths are still processed. *)
Theorem unknown_language_is_local_failure `{IsoLang} (path file_name : string) :
  file_stem path = Some file_name ->
  (Subtitle_new path = Some (Err (UnknownLanguage (strip_number_prefix file_name))) <->
   forall entry, In entry OVERVIEW -> snd entry <> strip_number_prefix file_name) /\
  (forall lang, from_name (strip_number_prefix file_name) = Some lang ->
   In (lang, strip_number_prefix file_name) OVERVIEW) /\
  ((forall entry, In entry OVERVIEW -> snd entry <> strip_number_prefix file_name) ->
   forall pre post,
     discover_subtitles (pre ++ path :: post) = discover_subtitles (pre ++ post)).
Proof.
  intros Hstem.
  assert (Hiff : Subtitle_new path
                 = Some (Err (UnknownLanguage (strip_number_prefix file_name)))
                 <-> from_name (strip_number_prefix file_name) = None).
  { unfold Subtitle_new. rewrite Hstem.
    destruct (from_name (strip_number_prefix file_name)) as [lang|]; [|tauto].
    split; [|discriminate].
    destruct (series_info_of_path path) as [si|e] eqn:Hsi; [discriminate|].
    intros [= ->]. apply series_info_of_path_err in Hsi.
    destruct Hsi as [|[|]]; discriminate. }
  rewrite Hiff, from_name_none.
  split; [tauto|]. split; [apply from_name_some|].
  intros Hno pre post. apply Titles.discover_subtitles_skip with
    (e := UnknownLanguage (strip_number_prefix file_name)).
  apply Hiff, from_name_none, Hno.
Qed.

Lemma unknown_language_is_local_failure_witness :
  @discover_subtitles Sample.isolang ["d/1_English.srt"; "d/2_Klingon.srt"; "d/French.srt"]
  = @discover_subtitles Sample.isolang ["d/1_English.srt"; "d/French.srt"].
Proof.
  exact (proj2 (proj2 (unknown_language_is_local_failure (H := Sample.isolang)
           "d/2_Klingon.srt" "2_Klingon" ltac:(reflexivity)))
           ltac:(vm_compute; intros entry Hin; decompose sum Hin;
                 subst; discriminate)
           ["d/1_English.srt"] ["d/French.srt"]).
Defined.

End Subtitles.

(** ** Pairing, link names and [process] *)

Module Linking.

Lemma append_assoc (a b c : string) : (a ++ b) ++ c = a ++ b ++ c.
Proof. induction a as [|x a IH]; simpl; [reflexivity | rewrite IH; reflexivity]. Qed.

Section WithTable.

Context `{IsoLang}.

Lemma link_file_name_eq (video : Video) (subtitle : Subtitle) :
  link_file_name video subtitle =
  match file_stem (v_path video), extension (s_path subtitle) with
  | Some stem, Some ext =>
      Some (stem ++ "." ++ preferred_tag (s_lang subtitle)
            ++ (if Language_eq_dec (s_lang subtitle) Eng then "." ++ DEFAULT else "")
            ++ "." ++ ext)
  | _, _ => None
  end.
Proof.
  unfold link_file_name.
  destruct (file_stem (v_path video)) as [stem|]; [|reflexivity].
  destruct (extension (s_path subtitle)) as [ext|];
    [|destruct (Language_eq_dec (s_lang subtitle) Eng); reflexivity].
  destruct (Language_eq_dec (s_lang subtitle) Eng); rewrite !append_assoc; reflexivity.
Qed.

Lemma link_each_trace (in_root_dir : string) (pairs : list (Video * Subtitle)) :
  forall tr0, exists new,
    fst (link_each in_root_dir pairs tr0) = (tr0 ++ new)%list /\
    forall l, In l new ->
    exists video subtitle file_name,
      In (video, subtitle) pairs /\
      link_file_name video subtitle = Some file_name /\
      l = (s_path subtitle, path_push in_root_dir file_name).
Proof.
  induction pairs as [|[video subtitle] pairs IH]; intros tr0.
  - exists []. split; [rewrite app_nil_r; reflexivity | intros l []].
  - cbn [link_each].
    destruct (link_file_name video subtitle) as [file_name|] eqn:Hname.
    + destruct (IH (tr0 ++ [(s_path subtitle, path_push in_root_dir file_name)])%list)
        as (new & Htr & Hnew).
      exists ((s_path subtitle, path_push in_root_dir file_name) :: new).
      split.
      * unfold bind, symlink. rewrite Htr, <- app_assoc. reflexivity.
      * intros l [<- | Hin].
        -- exists video, subtitle, file_name. split; [left; reflexivity|]. auto.
        -- destruct (Hnew l Hin) as (v & s & n & Hp & Hn & ->).
           exists v, s, n. split; [right; exact Hp | auto].
    + exists []. split; [rewrite app_nil_r; reflexivity | intros l []].
Qed.

Lemma bind_throw {A B} (m : M A) (k : A -> M B) (tr : list Link) (x : exn) :
  m tr = (tr, inr x) -> bind m k tr = (tr, inr x).
Proof. intros E. unfold bind. rewrite E. reflexivity. Qed.

End WithTable.

(** C3.  A video and a subtitle are paired exactly when both are in the
    inputs and their series infos are equal, two absent ones included. *)
Theorem pairing_iff_same_series_info `{IsoLang}
    (videos : list Video) (subtitles : list Subtitle) (v : Video) (s : Subtitle) :
  In (v, s) (pairings videos subtitles) <->
  In v videos /\ In s subtitles /\ v_series_info v = s_series_info s.
Proof.
  unfold pairings. rewrite filter_In, in_flat_map. cbn [fst snd].
  split.
  - intros ((v' & Hv & Hin) & Heq). apply in_map_iff in Hin.
    destruct Hin as (s' & [= <- <-] & Hs).
    destruct (option_SeriesInfo_eq_dec (v_series_info v') (s_series_info s'));
      [|discriminate].
    auto.
  - intros (Hv & Hs & Heq). split.
    + exists v. split; [exact Hv|]. apply in_map_iff. exists s. auto.
    + destruct (option_SeriesInfo_eq_dec (v_series_info v) (s_series_info s));
        [reflexivity | contradiction].
Qed.

Example pairing_by_episode_sample :
  let video := mkVideo "d/Show S01E02 - 720p.mkv" (Some (mkSeriesInfo 1 2)) in
  let sub2 := @mkSubtitle Sample.isolang "d/S01E02/English.srt" Sample.English
                (Some (mkSeriesInfo 1 2)) in
  let sub3 := @mkSubtitle Sample.isolang "d/S01E03/English.srt" Sample.English
                (Some (mkSeriesInfo 1 3)) in
  pairings [video] [sub2; sub3] = [(video, sub2)].
Proof. reflexivity. Qed.

(** C4.  Every link [create_symlinks] makes is for a paired video and
    subtitle, and is named
    [{video stem}.{2-letter code, else 3-letter code}[.default].{subtitle
    extension}] in the root directory, with [.default] exactly for the
    default language [Language::Eng]. *)
Theorem link_names_format `{IsoLang} (in_root_dir : string)
    (videos : list Video) (subtitles : list Subtitle) (tr0 : list Link) :
  exists new,
    fst (create_symlinks in_root_dir videos subtitles tr0) = (tr0 ++ new)%list /\
    forall l, In l new ->
    exists v s stem ext,
      In (v, s) (pairings videos subtitles) /\
      file_stem (v_path v) = Some stem /\
      extension (s_path s) = Some ext /\
      l = (s_path s,
           path_push in_root_dir
             (stem ++ "."
              ++ match to_639_1 (s_lang s) with
                 | Some code => code
                 | None => to_639_3 (s_lang s)
                 end
              ++ (if Language_eq_dec (s_lang s) Eng then ".default" else "")
              ++ "." ++ ext)).
Proof.
  destruct (link_each_trace in_root_dir (pairings videos subtitles) tr0)
    as (new & Htr & Hnew).
  exists new. split; [exact Htr|].
  intros l Hl. destruct (Hnew l Hl) as (v & s & n & Hp & Hn & ->).
  rewrite link_file_name_eq in Hn.
  destruct (file_stem (v_path v)) as [stem|] eqn:Hs; [|discriminate].
  destruct (extension (s_path s)) as [ext|] eqn:He; [|discriminate].
  injection Hn as <-. exists v, s, stem, ext.
  split; [exact Hp|]. split; [exact Hs|]. split; [exact He | reflexivity].
Qed.

Example link_name_movie_sample :
  @link_file_name Sample.isolang (mkVideo "d/Movie.mkv" None)
    (@mkSubtitle Sample.isolang "d/English.srt" Sample.English None)
  = Some "Movie.en.default.srt".
Proof. reflexivity. Qed.

(** C10.  The [.default] marker is hard-wired to English: every link for
    an English subtitle carries it, and no link for another language
    does. *)
Theorem default_marker_iff_english `{IsoLang} (in_root_dir : string)
    (videos : list Video) (subtitles : list Subtitle) (tr0 : list Link) :
  exists new,
    fst (create_symlinks in_root_dir videos subtitles tr0) = (tr0 ++ new)%list /\
    forall l, In l new ->
    exists v s stem ext,
      In (v, s) (pairings videos subtitles) /\
      file_stem (v_path v) = Some stem /\
      extension (s_path s) = Some ext /\
      (s_lang s = Eng ->
       l = (s_path s, path_push in_root_dir
                        (stem ++ "." ++ preferred_tag (s_lang s) ++ ".default." ++ ext))) /\
      (s_lang s <> Eng ->
       l = (s_path s, path_push in_root_dir
                        (stem ++ "." ++ preferred_tag (s_lang s) ++ "." ++ ext))).
Proof.
  destruct (link_each_trace in_root_dir (pairings videos subtitles) tr0)
    as (new & Htr & Hnew).
  exists new. split; [exact Htr|].
  intros l Hl. destruct (Hnew l Hl) as (v & s & n & Hp & Hn & ->).
  rewrite link_file_name_eq in Hn.
  destruct (file_stem (v_path v)) as [stem|] eqn:Hs; [|discriminate].
  destruct (extension (s_path s)) as [ext|] eqn:He; [|discriminate].
  injection Hn as <-. exists v, s, stem, ext.
  split; [exact Hp|]. split; [exact Hs|]. split; [exact He|].
  destruct (Language_eq_dec (s_lang s) Eng); split; intros; try contradiction;
    reflexivity.
Qed.

(** C7.  When no video is found, when some but not all videos carry an
    episode identifier, or when the same-title check fails, [process]
    returns that error and makes no [symlink] call at all. *)
Theorem fatal_directory_errors_emit_no_links `{IsoLang} (path : string)
    (video_paths subtitle_paths : list string) (tr0 : list Link) :
  (discover_videos video_paths = [] ->
   process true path video_paths subtitle_paths tr0
   = (tr0, inr (Bail NoVideosFound))) /\
  ((exists v, In v (discover_videos video_paths) /\ part_of_series v = true) ->
   (exists v, In v (discover_videos video_paths) /\ part_of_series v = false) ->
   process true path video_paths subtitle_paths tr0
   = (tr0, inr (Bail MixedSeriesAndMovies))) /\
  (2 <= length (discover_videos video_paths) ->
   no_series (discover_videos video_paths)
   || all_a_series (discover_videos video_paths) = true ->
   different_versions_same_media (map v_path (discover_videos video_paths))
   = Some false ->
   process true path video_paths subtitle_paths tr0
   = (tr0, inr (Bail InconsistentTitles))).
Proof.
  unfold process. cbn [negb].
  generalize (discover_videos video_paths) as videos. intros videos.
  split; [|split].
  - intros ->. apply bind_throw. reflexivity.
  - intros (v & Hv & Hs) (w & Hw & Hn). apply bind_throw.
    assert (Hno : no_series videos = false).
    { destruct (no_series videos) eqn:E; [|reflexivity].
      unfold no_series in E. rewrite forallb_forall in E.
      specialize (E v Hv). rewrite Hs in E. discriminate. }
    assert (Hall : all_a_series videos = false).
    { destruct (all_a_series videos) eqn:E; [|reflexivity].
      unfold all_a_series in E. rewrite forallb_forall in E.
      specialize (E w Hw). rewrite Hn in E. discriminate. }
    destruct videos as [|a [|b rest]].
    + destruct Hv.
    + destruct Hv as [<-|[]]. destruct Hw as [<-|[]]. congruence.
    + unfold check_videos. rewrite Hno, Hall. reflexivity.
  - intros Hlen Hmix Hdv. apply bind_throw.
    destruct videos as [|a [|b rest]]; simpl in Hlen; try lia.
    unfold check_videos. rewrite Hmix, Hdv. reflexivity.
Qed.

Lemma fatal_directory_errors_emit_no_links_witness :
  @process Sample.isolang true "d" [] ["d/English.srt"] [] = ([], inr (Bail NoVideosFound)) /\
  @process Sample.isolang true "d" ["d/Show S01E01 - 720p.mkv"; "d/Show - 720p.mkv"]
    ["d/English.srt"] [] = ([], inr (Bail MixedSeriesAndMovies)) /\
  @process Sample.isolang true "d" ["d/Show - 720p.mkv"; "d/Other - 720p.mkv"]
    ["d/English.srt"] [] = ([], inr (Bail InconsistentTitles)).
Proof.
  split; [|split].
  - exact (proj1 (fatal_directory_errors_emit_no_links (H := Sample.isolang)
             "d" [] ["d/English.srt"] []) ltac:(reflexivity)).
  - exact (proj1 (proj2 (fatal_directory_errors_emit_no_links (H := Sample.isolang)
             "d" ["d/Show S01E01 - 720p.mkv"; "d/Show - 720p.mkv"] ["d/English.srt"] []))
             ltac:(vm_compute; eexists; split; [left; reflexivity | reflexivity])
             ltac:(vm_compute; eexists; split; [right; left; reflexivity | reflexivity])).
  - exact (proj2 (proj2 (fatal_directory_errors_emit_no_links (H := Sample.isolang)
             "d" ["d/Show - 720p.mkv"; "d/Other - 720p.mkv"] ["d/English.srt"] []))
             ltac:(vm_compute; lia) ltac:(reflexivity) ltac:(reflexivity)).
Defined.

End Linking.

(** ** Further properties of the code *)

Module Extras.

(** *** Parsing [S##E##] *)

Lemma substring_length_le (n m : nat) (s : string) :
  String.length (substring n m s) <= m.
Proof.
  revert n m; induction s as [|c s IH]; intros n m.
  - destruct n, m; simpl; lia.
  - destruct n, m; simpl; try lia; try apply IH.
    specialize (IH 0 m). lia.
Qed.

Lemma u8_digits_bound (t : string) :
  forall acc n, u8_digits acc t = Some n -> n < (acc + 1) * 10 ^ String.length t.
Proof.
  induction t as [|c t IH]; intros acc n H; simpl in H.
  - injection H as <-. simpl. lia.
  - destruct (is_digitb c) eqn:Hd; [|discriminate].
    destruct (255 <? acc * 10 + (nat_of_ascii c - 48)); [discriminate|].
    apply IH in H. unfold is_digitb in Hd. apply andb_prop in Hd.
    destruct Hd as [_ Hd]. apply Nat.leb_le in Hd.
    simpl String.length. rewrite Nat.pow_succ_r'.
    assert (10 ^ String.length t >= 1) by (apply Nat.le_succ_l, Nat.neq_0_lt_0, Nat.pow_nonzero; lia).
    nia.
Qed.

Lemma parse_nonzero_u8_two (t : string) (n : nat) :
  String.length t <= 2 -> parse_nonzero_u8 t = Some n -> 1 <= n <= 99.
Proof.
  intros Hlen H. unfold parse_nonzero_u8 in H.
  destruct (parse_u8 t) as [[|k]|] eqn:Hp; try discriminate.
  injection H as <-. split; [lia|].
  unfold parse_u8 in Hp. destruct t as [|c t]; [discriminate|].
  destruct (Ascii.eqb c "+").
  - destruct t as [|c' t]; [discriminate|].
    apply u8_digits_bound in Hp. simpl in Hlen, Hp.
    assert (String.length t = 0) as E by lia. rewrite E in Hp. simpl in Hp. lia.
  - apply u8_digits_bound in Hp. simpl in Hlen.
    assert (10 ^ String.length (String c t) <= 100).
    { simpl String.length. destruct (String.length t) as [|[|j]]; simpl; lia. }
    lia.
Qed.

(** [SeriesInfo::from_str] only ever yields a season and an episode in
    [1..99]. *)
Theorem SeriesInfo_from_str_bounds (s : string) (si : SeriesInfo) :
  SeriesInfo_from_str s = Ok si ->
  1 <= season si <= 99 /\ 1 <= episode si <= 99.
Proof.
  unfold SeriesInfo_from_str.
  destruct (negb (String.length s =? 6) || negb (series_info_is_match s));
    [discriminate|].
  destruct (parse_nonzero_u8 (substring 1 2 s)) as [a|] eqn:Ha; [|discriminate].
  destruct (parse_nonzero_u8 (substring 4 2 s)) as [b|] eqn:Hb; [|discriminate].
  intros [= <-]. simpl.
  split; [apply (parse_nonzero_u8_two (substring 1 2 s))
         | apply (parse_nonzero_u8_two (substring 4 2 s))];
    solve [apply substring_length_le | assumption].
Qed.

Lemma SeriesInfo_from_str_bounds_witness :
  SeriesInfo_from_str "s12E34" = Ok (mkSeriesInfo 12 34) /\ 1 <= 12 <= 99.
Proof.
  split; [reflexivity|].
  exact (proj1 (SeriesInfo_from_str_bounds "s12E34" (mkSeriesInfo 12 34)
                  ltac:(reflexivity))).
Defined.

Lemma ascii_digit_is_digit (a : nat) : a < 10 -> is_digitb (ascii_digit a) = true.
Proof.
  intros Ha. do 10 (destruct a as [|a]; [reflexivity|]). lia.
Qed.

Lemma parse_nonzero_u8_digits (a b : nat) :
  a < 10 -> b < 10 ->
  parse_nonzero_u8 (String (ascii_digit a) (String (ascii_digit b) ""))
  = if 10 * a + b =? 0 then None else Some (10 * a + b).
Proof.
  intros Ha Hb.
  do 10 (destruct a as [|a]; [do 10 (destruct b as [|b]; [reflexivity|]); lia|]).
  lia.
Qed.

(** On a six-character text [S] (any case), two digits, [E] (any case), two
    digits, [SeriesInfo::from_str] reads the two decimal numbers, and fails
    on the season first, then on the episode, when one of them is zero. *)
Theorem SeriesInfo_from_str_digits (c0 c3 : ascii) (a b c d : nat) :
  ci_eqb c0 "S" = true -> ci_eqb c3 "E" = true ->
  a < 10 -> b < 10 -> c < 10 -> d < 10 ->
  SeriesInfo_from_str
    (String c0 (String (ascii_digit a) (String (ascii_digit b)
       (String c3 (String (ascii_digit c) (String (ascii_digit d) ""))))))
  = if 10 * a + b =? 0 then Err ParseSeason
    else if 10 * c + d =? 0 then Err ParseEpisode
    else Ok (mkSeriesInfo (10 * a + b) (10 * c + d)).
Proof.
  intros H0 H3 Ha Hb Hc Hd.
  set (s := String c0 (String (ascii_digit a) (String (ascii_digit b)
              (String c3 (String (ascii_digit c) (String (ascii_digit d) "")))))).
  assert (Hat : series_info_at s = Some s).
  { unfold series_info_at, s. cbv beta iota.
    rewrite H0, H3, !ascii_digit_is_digit by assumption. reflexivity. }
  unfold SeriesInfo_from_str, series_info_is_match.
  rewrite Titles.series_info_find_eq, Hat.
  change (String.length s =? 6) with true.
  change (substring 1 2 s) with (String (ascii_digit a) (String (ascii_digit b) "")).
  change (substring 4 2 s) with (String (ascii_digit c) (String (ascii_digit d) "")).
  cbn [negb orb].
  rewrite (parse_nonzero_u8_digits a b Ha Hb).
  destruct (10 * a + b =? 0); [reflexivity|].
  rewrite (parse_nonzero_u8_digits c d Hc Hd).
  destruct (10 * c + d =? 0); reflexivity.
Qed.

Lemma SeriesInfo_from_str_digits_witness :
  SeriesInfo_from_str "s01e10" = Ok (mkSeriesInfo 1 10).
Proof.
  exact (SeriesInfo_from_str_digits "s" "e" 0 1 1 0 ltac:(reflexivity)
           ltac:(reflexivity) ltac:(lia) ltac:(lia) ltac:(lia) ltac:(lia)).
Defined.

(** *** Language tokens *)

Lemma digits_then_underscore_app (ds rest : string) :
  forallb is_digitb (list_ascii_of_string ds) = true ->
  digits_then_underscore (ds ++ String "_" rest) = Some rest.
Proof.
  induction ds as [|c ds IH]; intros Hds; [reflexivity|].
  simpl in Hds. apply andb_prop in Hds. destruct Hds as [Hc Hds].
  simpl. rewrite Hc. apply IH, Hds.
Qed.

(** [NUMBER_PREFIX_REGEX] strips exactly one leading run of digits and its
    underscore: what follows, even another ["N_"] prefix, is kept. *)
Theorem strip_number_prefix_removes_one (c : ascii) (ds rest : string) :
  is_digitb c = true ->
  forallb is_digitb (list_ascii_of_string ds) = true ->
  strip_number_prefix (String c (ds ++ String "_" rest)) = rest.
Proof.
  intros Hc Hds. unfold strip_number_prefix, number_prefix_rest.
  rewrite Hc, digits_then_underscore_app by exact Hds. reflexivity.
Qed.

Lemma strip_number_prefix_removes_one_witness :
  strip_number_prefix "12_3_English" = "3_English".
Proof.
  exact (strip_number_prefix_removes_one "1" "2" "3_English"
           ltac:(reflexivity) ltac:(reflexivity)).
Defined.

(** *** The same-title check *)

(** [different_versions_same_media] panics exactly on an empty list or
    when the first file has no name; otherwise it answers. *)
Theorem different_versions_same_media_panics_iff (files : list string) :
  different_versions_same_media files = None <->
  files = [] \/ exists first rest, files = first :: rest /\ file_stem first = None.
Proof.
  destruct files as [|first rest]; simpl.
  - split; [left; reflexivity | reflexivity].
  - destruct (file_stem first) as [name|] eqn:E.
    + unfold splitn_first. split; [|intros [|(f & r & [= <- <-] & Hf)]; congruence].
      destruct (before_suffix_match name); discriminate.
    + split; [intros _; right; exists first, rest; auto | reflexivity].
Qed.

(** Files that all have the same stem, such as one movie in several
    containers, always pass the same-title check. *)
Theorem same_stem_versions_pass (first : string) (files : list string) (stem : string) :
  file_stem first = Some stem ->
  (forall f, In f files -> file_stem f = Some stem) ->
  different_versions_same_media (first :: files) = Some true.
Proof.
  intros Hfirst Hall. simpl. rewrite Hfirst.
  assert (Hsplit : exists p, splitn_first stem = Some p).
  { unfold splitn_first. destruct (before_suffix_match stem); eexists; reflexivity. }
  destruct Hsplit as [p Hp]. rewrite Hp. f_equal.
  apply forallb_forall. intros f Hf. rewrite (Hall f Hf).
  apply Titles.splitn_first_prefix. exact Hp.
Qed.

Lemma same_stem_versions_pass_witness :
  different_versions_same_media ["d/Movie.mkv"; "e/Movie.mp4"] = Some true.
Proof.
  exact (same_stem_versions_pass "d/Movie.mkv" ["e/Movie.mp4"] "Movie"
           ltac:(reflexivity)
           ltac:(intros f [<- | []]; reflexivity)).
Defined.

(** *** Extension filters *)

Lemma ci_eqb_trans (c d e : ascii) :
  ci_eqb c d = true -> ci_eqb c e = true -> ci_eqb d e = true.
Proof.
  unfold ci_eqb. rewrite !Ascii.eqb_eq. congruence.
Qed.

Lemma ci_string_eqb_trans (s t u : string) :
  ci_string_eqb s t = true -> ci_string_eqb s u = true -> ci_string_eqb t u = true.
Proof.
  revert t u; induction s as [|c s IH]; intros [|d t] [|e u]; simpl; try congruence.
  rewrite !andb_true_iff. intros [H1 H2] [H3 H4].
  split; [apply (ci_eqb_trans c); assumption | apply (IH t u); assumption].
Qed.

(** No directory entry is taken both for a video and for a subtitle: the
    two extension lists share no extension, in any letter case. *)
Theorem video_and_subtitle_disjoint (dir_entry : DirEntry) :
  is_video dir_entry && is_subtitle dir_entry = false.
Proof.
  unfold is_video, is_subtitle.
  destruct (de_is_file dir_entry); [|reflexivity]. cbn [andb].
  destruct (extension (de_path dir_entry)) as [ext|]; [|reflexivity].
  destruct (ext_in ext VIDEO_EXTENSIONS) eqn:Hv; [|reflexivity].
  destruct (ext_in ext SUBTITLE_EXTENSIONS) eqn:Hs; [|reflexivity].
  exfalso. unfold ext_in in Hv, Hs. apply existsb_exists in Hv, Hs.
  destruct Hv as (v & Hvin & Hv). destruct Hs as (t & Htin & Ht).
  pose proof (ci_string_eqb_trans _ _ _ Hv Ht) as Hvt.
  simpl in Hvin, Htin.
  destruct Hvin as [<-|[<-|[<-|[]]]];
    destruct Htin as [<-|[<-|[<-|[<-|[<-|[]]]]]]; vm_compute in Hvt; discriminate.
Qed.

(** *** Deduplication *)

Lemma retain_unseen_covers `{IsoLang} (l : list Subtitle) :
  forall seen sub, In sub l ->
  contains seen (key sub) = true \/
  exists sub', In sub' (retain_unseen seen l) /\ key sub' = key sub.
Proof.
  induction l as [|x l IH]; intros seen sub Hin; [destruct Hin|].
  cbn [retain_unseen]. destruct (contains seen (key x)) eqn:Hc.
  - destruct Hin as [<-|Hin]; [left; exact Hc|]. apply IH, Hin.
  - destruct Hin as [<-|Hin].
    + right. exists x. split; [left|]; reflexivity.
    + destruct (IH (seen ++ [key x])%list sub Hin) as [Hs|(s' & Hs' & Hk)].
      * rewrite Subtitles.contains_app in Hs. apply orb_true_iff in Hs.
        destruct Hs as [Hs|Hs]; [left; exact Hs|].
        destruct (Key_eq_dec (key x) (key sub)) as [E|]; [|discriminate].
        right. exists x. split; [left; reflexivity | exact E].
      * right. exists s'. split; [right; exact Hs' | exact Hk].
Qed.

Lemma retain_unseen_incl `{IsoLang} (l : list Subtitle) :
  forall seen x, In x (retain_unseen seen l) -> In x l.
Proof.
  induction l as [|y l IH]; intros seen x Hin; [destruct Hin|].
  cbn [retain_unseen] in Hin. destruct (contains seen (key y)).
  - right. eapply IH; exact Hin.
  - destruct Hin as [<-|Hin]; [left; reflexivity | right; eapply IH; exact Hin].
Qed.

(** [remove_duplicate_languages] only drops entries, and every
    (language, series info) key of its input keeps one subtitle. *)
Theorem remove_duplicate_languages_keeps_every_key `{IsoLang} (subs : list Subtitle) :
  (forall x, In x (remove_duplicate_languages subs) -> In x subs) /\
  (forall sub, In sub subs ->
   exists sub', In sub' (remove_duplicate_languages subs) /\ key sub' = key sub).
Proof.
  split.
  - intros x. apply retain_unseen_incl.
  - intros sub Hin. destruct (retain_unseen_covers subs [] sub Hin) as [Hc|Hk];
      [discriminate | exact Hk].
Qed.

(** *** [process] *)

Section Runs.
Context `{IsoLang}.

Lemma process_true_eq (path : string) (video_paths subtitle_paths : list string)
    (tr0 : list Link) :
  process true path video_paths subtitle_paths tr0 =
  match check_videos (discover_videos video_paths) tr0 with
  | (tr', inl _) =>
      match discover_subtitles subtitle_paths with
      | None => throw Panic
      | Some [] => ret tt
      | Some subs =>
          create_symlinks path (discover_videos video_paths)
            (remove_duplicate_languages subs)
      end tr'
  | (tr', inr x) => (tr', inr x)
  end.
Proof. reflexivity. Qed.

Lemma check_videos_outcome (videos : list Video) (tr0 : list Link) :
  check_videos videos tr0 = (tr0, inl tt) \/
  check_videos videos tr0 = (tr0, inr Panic) \/
  exists e, check_videos videos tr0 = (tr0, inr (Bail e)) /\
    (e = NoVideosFound \/ e = MixedSeriesAndMovies \/ e = InconsistentTitles).
Proof.
  destruct videos as [|v [|w ws]]; cbn [check_videos].
  - right; right. exists NoVideosFound. auto.
  - left; reflexivity.
  - destruct (negb _).
    + right; right. exists MixedSeriesAndMovies. auto.
    + destruct (different_versions_same_media _) as [[|]|].
      * left; reflexivity.
      * right; right. exists InconsistentTitles. auto.
      * right; left; reflexivity.
Qed.

Lemma link_each_ok (in_root_dir : string) (pairs : list (Video * Subtitle)) :
  forall tr0 tr, link_each in_root_dir pairs tr0 = (tr, inl tt) ->
  exists links, tr = (tr0 ++ links)%list /\
  Forall2 (fun vs l => exists file_name,
             link_file_name (fst vs) (snd vs) = Some file_name /\
             l = (s_path (snd vs), path_push in_root_dir file_name)) pairs links.
Proof.
  induction pairs as [|[video subtitle] pairs IH]; intros tr0 tr E.
  - cbn in E. injection E as <-. exists []. rewrite app_nil_r. auto.
  - cbn [link_each] in E.
    destruct (link_file_name video subtitle) as [file_name|] eqn:Hname;
      [|discriminate].
    unfold bind, symlink in E.
    destruct (IH _ _ E) as (links & -> & Hl).
    exists ((s_path subtitle, path_push in_root_dir file_name) :: links).
    split; [rewrite <- app_assoc; reflexivity|].
    constructor; [|exact Hl]. exists file_name. auto.
Qed.

Lemma link_each_outcome (in_root_dir : string) (pairs : list (Video * Subtitle)) :
  forall tr0, snd (link_each in_root_dir pairs tr0) = inl tt \/
              snd (link_each in_root_dir pairs tr0) = inr Panic.
Proof.
  induction pairs as [|[video subtitle] pairs IH]; intros tr0; cbn [link_each].
  - left; reflexivity.
  - destruct (link_file_name video subtitle) as [file_name|].
    + unfold bind, symlink. apply IH.
    + right; reflexivity.
Qed.

Lemma link_each_named (in_root_dir : string) (pairs : list (Video * Subtitle)) :
  (forall vs, In vs pairs -> link_file_name (fst vs) (snd vs) <> None) ->
  forall tr0, snd (link_each in_root_dir pairs tr0) = inl tt.
Proof.
  induction pairs as [|[video subtitle] pairs IH]; intros Hall tr0; cbn [link_each].
  - reflexivity.
  - destruct (link_file_name video subtitle) as [file_name|] eqn:Hname.
    + unfold bind, symlink. apply IH. intros vs Hin. apply Hall. right; exact Hin.
    + exfalso. apply (Hall (video, subtitle)); [left; reflexivity | exact Hname].
Qed.

Lemma pairings_nil (videos : list Video) : pairings videos [] = [].
Proof. unfold pairings. induction videos as [|v vs IH]; [reflexivity | exact IH]. Qed.

Lemma pairings_In (videos : list Video) (subtitles : list Subtitle)
    (video : Video) (subtitle : Subtitle) :
  In (video, subtitle) (pairings videos subtitles) ->
  In video videos /\ In subtitle subtitles.
Proof.
  unfold pairings. intros Hin. apply filter_In in Hin. destruct Hin as [Hin _].
  apply in_flat_map in Hin. destruct Hin as (v & Hv & Hin).
  apply in_map_iff in Hin. destruct Hin as (s & [= <- <-] & Hs). auto.
Qed.

Lemma discover_videos_paths (paths : list string) (video : Video) :
  In video (discover_videos paths) -> In (v_path video) paths.
Proof.
  induction paths as [|p ps IH]; cbn [discover_videos]; [intros []|].
  unfold Video_from_path. destruct (series_info_of_path p); intros Hin.
  - destruct Hin as [<-|Hin]; [left; reflexivity | right; apply IH, Hin].
  - right; apply IH, Hin.
Qed.

Lemma discover_subtitles_paths (paths : list string) :
  forall subs subtitle, discover_subtitles paths = Some subs ->
  In subtitle subs -> In (s_path subtitle) paths.
Proof.
  induction paths as [|p ps IH]; intros subs subtitle E Hin; cbn [discover_subtitles] in E.
  - injection E as <-. destruct Hin.
  - unfold Subtitle_new in E.
    destruct (file_stem p); [|discriminate].
    destruct (from_name _); [|right; eapply IH; eassumption].
    destruct (series_info_of_path p); [|right; eapply IH; eassumption].
    destruct (discover_subtitles ps) as [subs'|] eqn:Hd; [|discriminate].
    injection E as <-. destruct Hin as [<-|Hin]; [left; reflexivity|].
    right; eapply IH; [reflexivity | exact Hin].
Qed.

Lemma discover_subtitles_named (paths : list string) :
  (forall p, In p paths -> file_stem p <> None) ->
  discover_subtitles paths <> None.
Proof.
  induction paths as [|p ps IH]; intros Hall; cbn [discover_subtitles]; [discriminate|].
  assert (IH' : discover_subtitles ps <> None)
    by (apply IH; intros q Hq; apply Hall; right; exact Hq).
  unfold Subtitle_new.
  destruct (file_stem p) eqn:Hp; [|exfalso; apply (Hall p); [left|]; auto].
  destruct (from_name _); [|exact IH'].
  destruct (series_info_of_path p); [|exact IH'].
  destruct (discover_subtitles ps); [discriminate | exact IH'].
Qed.

End Runs.

Lemma extension_stem (p ext : string) :
  extension p = Some ext -> exists stem, file_stem p = Some stem.
Proof.
  unfold extension, file_stem. destruct (file_name p) as [n|]; [|discriminate].
  destruct (rsplit_file_at_dot n) as [[b|] [a|]]; try discriminate.
  intros _. eexists; reflexivity.
Qed.

Lemma filtered_extension (f : DirEntry -> bool) (group : list string) (e : DirEntry) :
  (forall d, f d = de_is_file d && match extension (de_path d) with
                                   | Some ext => ext_in ext group
                                   | None => false end) ->
  f e = true -> exists ext, extension (de_path e) = Some ext.
Proof.
  intros Hf He. rewrite Hf in He. apply andb_prop in He. destruct He as [_ He].
  destruct (extension (de_path e)); [eexists; reflexivity | discriminate].
Qed.

(** On success, [process] has made exactly one [symlink] call per
    (video, subtitle) pairing of the videos with the deduplicated
    subtitles, in order, named by [link_file_name]. *)
Theorem process_success_links `{IsoLang} (path : string)
    (video_paths subtitle_paths : list string) (tr0 tr : list Link) :
  process true path video_paths subtitle_paths tr0 = (tr, inl tt) ->
  exists subs links,
    discover_subtitles subtitle_paths = Some subs /\
    tr = (tr0 ++ links)%list /\
    Forall2 (fun vs l => exists file_name,
               link_file_name (fst vs) (snd vs) = Some file_name /\
               l = (s_path (snd vs), path_push path file_name))
            (pairings (discover_videos video_paths) (remove_duplicate_languages subs))
            links.
Proof.
  rewrite process_true_eq. intros E.
  destruct (check_videos_outcome (discover_videos video_paths) tr0)
    as [Hc|[Hc|(e & Hc & _)]]; rewrite Hc in E; [|discriminate|discriminate].
  destruct (discover_subtitles subtitle_paths) as [[|sub subs]|] eqn:Hd;
    [| |discriminate].
  - injection E as <-. exists [], []. split; [reflexivity|].
    split; [rewrite app_nil_r; reflexivity|].
    unfold remove_duplicate_languages. cbn [retain_unseen].
    rewrite pairings_nil. constructor.
  - exists (sub :: subs). unfold create_symlinks in E.
    destruct (link_each_ok _ _ _ _ E) as (links & -> & Hl).
    exists links. auto.
Qed.

Lemma process_success_links_witness :
  @process Sample.isolang true "d" ["d/Movie.mkv"] ["d/English.srt"] []
  = ([("d/English.srt", "d/Movie.en.default.srt")], inl tt) /\
  exists subs links,
    @discover_subtitles Sample.isolang ["d/English.srt"] = Some subs /\
    [("d/English.srt", "d/Movie.en.default.srt")] = ([] ++ links)%list /\
    Forall2 (fun vs l => exists file_name,
               @link_file_name Sample.isolang (fst vs) (snd vs) = Some file_name /\
               l = (s_path (snd vs), path_push "d" file_name))
            (@pairings Sample.isolang (discover_videos ["d/Movie.mkv"])
               (@remove_duplicate_languages Sample.isolang subs))
            links.
Proof.
  split; [vm_compute; reflexivity|].
  apply (process_success_links (H := Sample.isolang) "d" ["d/Movie.mkv"] ["d/English.srt"]).
  vm_compute. reflexivity.
Defined.

(** [process] fails with an error only before any link is made, and only
    for the directory or the video checks: never for a subtitle. *)
Theorem process_errors_only_from_checks `{IsoLang} (set_current_dir_ok : bool)
    (path : string) (video_paths subtitle_paths : list string)
    (tr0 tr : list Link) (e : Error) :
  process set_current_dir_ok path video_paths subtitle_paths tr0 = (tr, inr (Bail e)) ->
  tr = tr0 /\
  (e = SetCurrentDirFailed \/ e = NoVideosFound \/ e = MixedSeriesAndMovies
   \/ e = InconsistentTitles).
Proof.
  destruct set_current_dir_ok.
  2:{ intros E. injection E as <- <-. auto. }
  rewrite process_true_eq. intros E.
  destruct (check_videos_outcome (discover_videos video_paths) tr0)
    as [Hc|[Hc|(e' & Hc & He)]]; rewrite Hc in E.
  - destruct (discover_subtitles subtitle_paths) as [[|sub subs]|];
      [discriminate| |discriminate].
    unfold create_symlinks in E.
    destruct (link_each_outcome path
                (pairings (discover_videos video_paths)
                   (remove_duplicate_languages (sub :: subs))) tr0) as [Ho|Ho];
      rewrite E in Ho; discriminate.
  - discriminate.
  - injection E as <- <-. auto.
Qed.

Lemma process_errors_only_from_checks_witness :
  @process Sample.isolang true "d" [] ["d/English.srt"] [] = ([], inr (Bail NoVideosFound)) /\
  [] = @nil Link /\
  (NoVideosFound = SetCurrentDirFailed \/ NoVideosFound = NoVideosFound
   \/ NoVideosFound = MixedSeriesAndMovies \/ NoVideosFound = InconsistentTitles).
Proof.
  split; [reflexivity|].
  exact (process_errors_only_from_checks (H := Sample.isolang) true "d" [] ["d/English.srt"]
           [] [] NoVideosFound ltac:(reflexivity)).
Defined.

(** When every path comes from the directory walk's filters, that is
    every video path passes [is_video] and every subtitle path passes
    [is_subtitle], none of the [unwrap]s and [expect]s of [process]
    panics. *)
Theorem process_filtered_never_panics `{IsoLang} (set_current_dir_ok : bool)
    (path : string) (videos subtitles : list DirEntry) (tr0 : list Link) :
  Forall (fun e => is_video e = true) videos ->
  Forall (fun e => is_subtitle e = true) subtitles ->
  snd (process set_current_dir_ok path (map de_path videos) (map de_path subtitles) tr0)
  <> inr Panic.
Proof.
  intros Hv Hs.
  assert (Hvs : forall p, In p (map de_path videos) -> exists ext, extension p = Some ext).
  { intros p Hp. apply in_map_iff in Hp. destruct Hp as (d & <- & Hd).
    apply (filtered_extension is_video VIDEO_EXTENSIONS); [reflexivity|].
    rewrite Forall_forall in Hv. apply Hv, Hd. }
  assert (Hss : forall p, In p (map de_path subtitles) -> exists ext, extension p = Some ext).
  { intros p Hp. apply in_map_iff in Hp. destruct Hp as (d & <- & Hd).
    apply (filtered_extension is_subtitle SUBTITLE_EXTENSIONS); [reflexivity|].
    rewrite Forall_forall in Hs. apply Hs, Hd. }
  assert (Hstem : forall video, In video (discover_videos (map de_path videos)) ->
                  exists stem, file_stem (v_path video) = Some stem).
  { intros video Hin. destruct (Hvs _ (discover_videos_paths _ _ Hin)) as [ext Hext].
    exact (extension_stem _ _ Hext). }
  destruct set_current_dir_ok; [|discriminate].
  rewrite process_true_eq.
  destruct (check_videos_outcome (discover_videos (map de_path videos)) tr0)
    as [Hc|[Hc|(e & Hc & _)]]; rewrite Hc.
  - destruct (discover_subtitles (map de_path subtitles)) as [[|sub subs]|] eqn:Hd.
    + discriminate.
    + unfold create_symlinks. rewrite link_each_named; [discriminate|].
      intros [video subtitle] Hin. apply pairings_In in Hin. destruct Hin as [Hvin Hsin].
      apply retain_unseen_incl in Hsin.
      destruct (Hstem video Hvin) as [stem Hst].
      destruct (Hss _ (discover_subtitles_paths _ _ _ Hd Hsin)) as [ext Hext].
      cbn [fst snd]. rewrite Linking.link_file_name_eq, Hst, Hext. discriminate.
    + exfalso. revert Hd. apply discover_subtitles_named.
      intros p Hp. destruct (Hss p Hp) as [ext Hext].
      destruct (extension_stem _ _ Hext) as [stem ->]. discriminate.
  - exfalso. revert Hc.
    destruct (discover_videos (map de_path videos)) as [|v [|w ws]] eqn:Hvids;
      cbn [check_videos]; try discriminate.
    destruct (negb _); [discriminate|].
    cbn [map different_versions_same_media].
    destruct (Hstem v) as [stem ->]; [left; reflexivity|].
    unfold splitn_first. destruct (before_suffix_match stem);
      destruct (forallb _ _); discriminate.
  - discriminate.
Qed.

Lemma process_filtered_never_panics_witness :
  Forall (fun e => is_video e = true) [mkDirEntry "d/Movie.mkv" true] /\
  Forall (fun e => is_subtitle e = true) [mkDirEntry "d/1_English.SRT" true] /\
  snd (@process Sample.isolang true "d" (map de_path [mkDirEntry "d/Movie.mkv" true])
         (map de_path [mkDirEntry "d/1_English.SRT" true]) [])
  <> inr Panic.
Proof.
  assert (Hv : Forall (fun e => is_video e = true) [mkDirEntry "d/Movie.mkv" true])
    by (repeat constructor).
  assert (Hs : Forall (fun e => is_subtitle e = true) [mkDirEntry "d/1_English.SRT" true])
    by (repeat constructor).
  split; [exact Hv|]. split; [exact Hs|].
  exact (process_filtered_never_panics (H := Sample.isolang) true "d" _ _ [] Hv Hs).
Defined.

(** *** Discovery *)

(** Every discovered video is one of the walked paths, with the series
    info parsed from its file name. *)
Theorem discover_videos_sound (paths : list string) (video : Video) :
  In video (discover_videos paths) ->
  In (v_path video) paths /\ series_info_of_path (v_path video) = Ok (v_series_info video).
Proof.
  induction paths as [|p ps IH]; cbn [discover_videos]; [intros []|].
  unfold Video_from_path. destruct (series_info_of_path p) as [si|e] eqn:Hp; intros Hin.
  - destruct Hin as [<-|Hin]; [split; [left; reflexivity | exact Hp]|].
    destruct (IH Hin) as [Hi Hs]. split; [right; exact Hi | exact Hs].
  - destruct (IH Hin) as [Hi Hs]. split; [right; exact Hi | exact Hs].
Qed.

Lemma discover_videos_sound_witness :
  In (mkVideo "d/Show S01E02.mkv" (Some (mkSeriesInfo 1 2)))
     (discover_videos ["d/Show S01E02.mkv"; "d/Show S00E01.mkv"]) /\
  series_info_of_path "d/Show S01E02.mkv" = Ok (Some (mkSeriesInfo 1 2)).
Proof.
  assert (Hin : In (mkVideo "d/Show S01E02.mkv" (Some (mkSeriesInfo 1 2)))
                   (discover_videos ["d/Show S01E02.mkv"; "d/Show S00E01.mkv"]))
    by (vm_compute; left; reflexivity).
  split; [exact Hin|].
  exact (proj2 (discover_videos_sound _ _ Hin)).
Defined.

(** Every discovered subtitle is one of the walked paths; its language is
    the one named by its file stem once the number prefix is stripped, and
    its series info is parsed from its file name. *)
Theorem discover_subtitles_sound `{IsoLang} (paths : list string)
    (subs : list Subtitle) (subtitle : Subtitle) :
  discover_subtitles paths = Some subs -> In subtitle subs ->
  In (s_path subtitle) paths /\
  (exists stem, file_stem (s_path subtitle) = Some stem /\
                from_name (strip_number_prefix stem) = Some (s_lang subtitle)) /\
  series_info_of_path (s_path subtitle) = Ok (s_series_info subtitle).
Proof.
  revert subs. induction paths as [|p ps IH]; intros subs E Hin;
    cbn [discover_subtitles] in E.
  - injection E as <-. destruct Hin.
  - assert (Hrest : forall subs', discover_subtitles ps = Some subs' ->
                    In subtitle subs' ->
                    In (s_path subtitle) (p :: ps) /\
                    (exists stem, file_stem (s_path subtitle) = Some stem /\
                       from_name (strip_number_prefix stem) = Some (s_lang subtitle)) /\
                    series_info_of_path (s_path subtitle) = Ok (s_series_info subtitle)).
    { intros subs' E' Hin'. destruct (IH subs' E' Hin') as (Hi & Hl & Hs).
      split; [right; exact Hi | split; assumption]. }
    unfold Subtitle_new in E.
    destruct (file_stem p) as [stem|] eqn:Hstem; [|discriminate].
    destruct (from_name (strip_number_prefix stem)) as [lang|] eqn:Hlang;
      [|exact (Hrest _ E Hin)].
    destruct (series_info_of_path p) as [si|e] eqn:Hsi; [|exact (Hrest _ E Hin)].
    destruct (discover_subtitles ps) as [subs'|] eqn:Hd; [|discriminate].
    injection E as <-. destruct Hin as [<-|Hin]; [|exact (Hrest _ eq_refl Hin)].
    cbn [s_path s_lang s_series_info].
    split; [left; reflexivity|]. split; [exists stem; auto | exact Hsi].
Qed.

Lemma discover_subtitles_sound_witness :
  @discover_subtitles Sample.isolang ["d/2_French.srt"; "d/Klingon.srt"]
  = Some [mkSubtitle (H := Sample.isolang) "d/2_French.srt" Sample.French None] /\
  In "d/2_French.srt" ["d/2_French.srt"; "d/Klingon.srt"].
Proof.
  assert (E : @discover_subtitles Sample.isolang ["d/2_French.srt"; "d/Klingon.srt"]
              = Some [mkSubtitle (H := Sample.isolang) "d/2_French.srt" Sample.French None])
    by (vm_compute; reflexivity).
  split; [exact E|].
  exact (proj1 (discover_subtitles_sound (H := Sample.isolang) _ _ _ E
                  (or_introl eq_refl))).
Defined.

End Extras.
